(** * Port resolution in the four configuration idioms of [options.go]

    The Go file shows one small policy (which TCP port a server listens
    on) written in several API styles.  This development embeds the
    procedural, the builder and the functional-options variants and
    proves what each of them does with an absent, a negative, a zero and
    a positive port.

    Conventions of the embedding:
    - Go's [int] is read as [Z].  The program never does arithmetic on a
      port (it only compares it with 0 and prints it), so no wrap-around
      is involved and statements over all of [Z] cover every [int].
    - [*int] is an optional integer: [None] is the nil pointer, [Some v]
      a pointer to a variable holding [v].  No variable is ever written
      through such a pointer; module [Heap] below keeps the variables in
      an explicit store and shows that this reading loses nothing.
    - a call either returns its results or panics (a nil dereference is
      a run-time panic in Go). *)

From Stdlib Require Import ZArith String Ascii List Lia Bool.
From Stdlib Require Import DecimalString DecimalPos DecimalZ.
Import ListNotations.

Local Open Scope string_scope.
Local Open Scope Z_scope.

(** ** Values shared by all variants *)

(** [errors.New(text)]: an error that carries only its message. *)
Inductive error : Type :=
| errors_New (text : string).

Definition Error (e : error) : string :=
  match e with errors_New text => text end.

(** [http.Server], reduced to the one field the program sets. *)
Record Server : Type := mkServer { Addr : string }.

(** Why a call did not return. *)
Inductive panic : Type :=
| nil_dereference.

(** Result of running a Go call. *)
Inductive run (A : Type) : Type :=
| Returns (a : A)
| Panics (p : panic).

Arguments Returns {A} a.
Arguments Panics {A} p.

Definition bind {A B : Type} (m : run A) (k : A -> run B) : run B :=
  match m with
  | Returns a => k a
  | Panics p => Panics p
  end.

Notation "x <- m ;; k" := (bind m (fun x => k))
  (at level 100, m at next level, right associativity).

(** Dereferencing an int pointer. *)
Definition deref (p : option Z) : run Z :=
  match p with
  | Some v => Returns v
  | None => Panics nil_dereference
  end.

(** [strconv.Itoa]: the decimal numeral of an integer, with a leading
    minus sign for negative numbers. *)
Definition Itoa (i : Z) : string :=
  NilZero.string_of_int (Z.to_int i).

(** Whether a string contains a colon. *)
Definition has_colon (s : string) : bool :=
  existsb (Ascii.eqb ":") (list_ascii_of_string s).

(** The two result values of every [NewServer]: a server pointer (nil on
    failure) and an error (nil on success). *)
Definition result : Type := (option Server * option error)%type.

Definition negative_port : error := errors_New "port cannot be negative".

(** ** Procedural variant: [NewServer(addr string, port *int)] *)

Module Procedural.

Definition NewServer (addr : string) (port : option Z) : run result :=
  v <- deref port ;;
  if v <? 0 then Returns (None, Some negative_port)
  else
    (* [if port == nil { }]: the body is empty *)
    z <- deref port ;;
    let _ := (z =? 0) in (* [if *port == 0 { }]: the body is empty *)
    w <- deref port ;;
    Returns (Some {| Addr := addr ++ ":" ++ Itoa w |}, None).

End Procedural.

(** ** Builder variant: [ConfigBuilder], [Port], [build], [NewServer] *)

Module Builder.

(** The struct of this variant is declared with a field [Post int],
    while [build] assigns the builder's int pointer to [cfg.Port] and
    [NewServer] dereferences [cfg.Port]: the field is modelled the way
    both functions use it. *)
Record Config : Type := mkConfig { Config_Port : option Z }.

Record ConfigBuilder : Type := mkConfigBuilder { port : option Z }.

(** [ConfigBuilder{}], the zero value [main] starts from. *)
Definition empty : ConfigBuilder := {| port := None |}.

(** [func (b *ConfigBuilder) Port(port int) *ConfigBuilder]: the
    receiver after the call (the method returns the receiver). *)
Definition Port (b : ConfigBuilder) (v : Z) : ConfigBuilder :=
  {| port := Some v |}.

Definition build (b : ConfigBuilder) : run (Config * option error) :=
  (* [if b.port == nil { }]: the body is empty *)
  v <- deref (port b) ;;
  if v <? 0 then Returns ({| Config_Port := None |}, Some negative_port)
  else
    z <- deref (port b) ;;
    let _ := (z =? 0) in (* [if *b.port == 0 { }]: the body is empty *)
    Returns ({| Config_Port := port b |}, None).

Definition NewServer (addr : string) (cfg : Config) : run result :=
  v <- deref (Config_Port cfg) ;;
  Returns (Some {| Addr := addr ++ ":" ++ Itoa v |}, None).

End Builder.

(** ** Functional-options variant: [options], [Option], [WithPort],
    [NewServer] *)

Module Functional.

Record options : Type := mkOptions { port : option Z }.

(** [type Option func(options *options) error]: the struct is passed
    by pointer, so an option maps the struct before the call to the
    struct after it, together with the error it returns. *)
Definition Option : Type := options -> options * option error.

Definition WithPort (v : Z) : Option :=
  fun o =>
    if v <? 0 then (o, Some negative_port)
    else ({| port := Some v |}, None).

(** The [for _, opt := range opts] loop of [NewServer], started on the
    struct [o]: it stops at the first option that returns an error. *)
Fixpoint apply_opts (opts : list Option) (o : options)
  : options * option error :=
  match opts with
  | [] => (o, None)
  | opt :: rest =>
      let '(o', err) := opt o in
      match err with
      | Some e => (o', Some e)
      | None => apply_opts rest o'
      end
  end.

(** The local variable [port] of [NewServer] when the server is built:
    declared as [var port int] (so 0), and assigned only in the [else]
    branch of [if *options.port == 0]. *)
Definition listen_port (o : options) : run Z :=
  (* [if options.port == nil { }]: the body is empty *)
  v <- deref (port o) ;;
  if v =? 0 then Returns 0
  else w <- deref (port o) ;; Returns w.

Definition NewServer (addr : string) (opts : list Option) : run result :=
  let '(o, err) := apply_opts opts {| port := None |} in
  match err with
  | Some e => Returns (None, Some e)
  | None =>
      p <- listen_port o ;;
      Returns (Some {| Addr := addr ++ ":" ++ Itoa p |}, None)
  end.

End Functional.

(** ** Config-struct variant: [Config], [NewServer(addr string, cfg *Config)] *)

Module ConfigStruct.

Record Config : Type := mkConfig { Port : option Z }.

(** Reading a field through the pointer [cfg]. *)
Definition field (cfg : option Config) : run Config :=
  match cfg with
  | Some c => Returns c
  | None => Panics nil_dereference
  end.

Section Conversion.

(** The return statement hands the pointer itself, [cfg.Port], to
    [strconv.Itoa], which takes an int.  The text this ill-typed call
    puts into the address is left open: it is a parameter. *)
Variable Itoa_pointer : option Z -> string.

Definition NewServer (addr : string) (cfg : option Config) : run result :=
  c <- field cfg ;; (* [if cfg.Port == nil { }]: the body is empty *)
  v <- deref (Port c) ;;
  if v <? 0 then Returns (None, Some negative_port)
  else
    z <- deref (Port c) ;;
    let _ := (z =? 0) in (* [if *cfg.Port == 0 { }]: the body is empty *)
    Returns (Some {| Addr := addr ++ ":" ++ Itoa_pointer (Port c) |}, None).

End Conversion.

End ConfigStruct.

(** ** The port request of the specification

    A request is absent or carries an integer.  Each variant receives it
    in its own way: a nil or non-nil pointer, an untouched builder or
    one whose [Port] method was called, no option or one [WithPort]. *)

Inductive PortSpec : Type :=
| absent
| present (v : Z).

Definition pointer_of (s : PortSpec) : option Z :=
  match s with
  | absent => None
  | present v => Some v
  end.

Definition builder_of (s : PortSpec) : Builder.ConfigBuilder :=
  match s with
  | absent => Builder.empty
  | present v => Builder.Port Builder.empty v
  end.

Definition options_of (s : PortSpec) : list Functional.Option :=
  match s with
  | absent => []
  | present v => [Functional.WithPort v]
  end.

(** ** The functional-options variant over an explicit heap

    Here the int variables live in a store and an int pointer is nil or
    an address.  [WithPort] allocates its parameter (the closure it
    returns captures the variable and stores its address in the struct),
    and an option may read and write the store. *)

Module Heap.

Definition loc : Type := nat.

(** [next] is the first address not yet in use. *)
Record store : Type := mkStore { next : loc; cells : loc -> Z }.

Definition new (v : Z) (h : store) : loc * store :=
  (next h,
   {| next := S (next h);
      cells := fun l => if Nat.eqb l (next h) then v else cells h l |}).

Definition load (p : option loc) (h : store) : run Z :=
  match p with
  | Some l => Returns (cells h l)
  | None => Panics nil_dereference
  end.

Record options : Type := mkOptions { port : option loc }.

Definition Option : Type :=
  options -> store -> options * option error * store.

Definition WithPort (v : Z) (h : store) : Option * store :=
  let '(a, h1) := new v h in
  (fun o h' =>
     if cells h' a <? 0 then (o, Some negative_port, h')
     else ({| port := Some a |}, None, h'),
   h1).

Fixpoint apply_opts (opts : list Option) (o : options) (h : store)
  : options * option error * store :=
  match opts with
  | [] => (o, None, h)
  | opt :: rest =>
      let '(o', err, h') := opt o h in
      match err with
      | Some e => (o', Some e, h')
      | None => apply_opts rest o' h'
      end
  end.

Definition listen_port (o : options) (h : store) : run Z :=
  v <- load (port o) h ;;
  if v =? 0 then Returns 0
  else w <- load (port o) h ;; Returns w.

Definition NewServer (addr : string) (opts : list Option) (h : store)
  : run result * store :=
  let '(o, err, h1) := apply_opts opts {| port := None |} h in
  match err with
  | Some e => (Returns (None, Some e), h1)
  | None =>
      (p <- listen_port o h1 ;;
       Returns (Some {| Addr := addr ++ ":" ++ Itoa p |}, None),
       h1)
  end.

(** What [main] does with a port request: build the option list, then
    call [NewServer]. *)
Definition resolve (addr : string) (s : PortSpec) (h : store)
  : run result * store :=
  match s with
  | absent => NewServer addr [] h
  | present v =>
      let '(opt, h1) := WithPort v h in
      NewServer addr [opt] h1
  end.

(** The store a request leaves behind: one more variable when a port
    was given, nothing otherwise. *)
Definition after (s : PortSpec) (h : store) : store :=
  match s with
  | absent => h
  | present v => snd (new v h)
  end.

(** The closure [WithPort] returns, for a parameter stored at [a]. *)
Definition reader (a : loc) : Option :=
  fun o h =>
    if cells h a <? 0 then (o, Some negative_port, h)
    else ({| port := Some a |}, None, h).

(** The arguments [WithPort(v1), ..., WithPort(vn)] of a call, evaluated
    from left to right. *)
Fixpoint WithPorts (vs : list Z) (h : store) : list Option * store :=
  match vs with
  | [] => ([], h)
  | v :: rest =>
      let '(opt, h1) := WithPort v h in
      let '(opts, h2) := WithPorts rest h1 in
      (opt :: opts, h2)
  end.

(** The struct with each pointer replaced by the value it points to. *)
Definition view (h : store) (o : options) : Functional.options :=
  {| Functional.port := option_map (cells h) (port o) |}.

Definition empty_store : store := {| next := O; cells := fun _ => 0 |}.

End Heap.

(** Settles the integer tests of the goal by case analysis. *)
Ltac by_cases :=
  repeat match goal with
    | |- context [?a <? ?b] => destruct (Z.ltb_spec a b); try lia
    | |- context [?a =? ?b] => destruct (Z.eqb_spec a b); try lia
    end.

(** ** Checks on concrete inputs *)

Example Itoa_8080 : Itoa 8080 = "8080".
Proof. reflexivity. Qed.

Example Itoa_0 : Itoa 0 = "0".
Proof. reflexivity. Qed.

Example Itoa_neg : Itoa (-17) = "-17".
Proof. reflexivity. Qed.

Example procedural_main :
  Procedural.NewServer "localhost" (Some 8080)
  = Returns (Some {| Addr := "localhost:8080" |}, None).
Proof. reflexivity. Qed.

Example builder_main :
  bind (Builder.build (Builder.Port Builder.empty 8080))
       (fun '(cfg, _) => Builder.NewServer "localhost" cfg)
  = Returns (Some {| Addr := "localhost:8080" |}, None).
Proof. reflexivity. Qed.

Example functional_main :
  Functional.NewServer "localhost" [Functional.WithPort 8080]
  = Returns (Some {| Addr := "localhost:8080" |}, None).
Proof. reflexivity. Qed.

Example functional_minus_one :
  Functional.NewServer "localhost" [Functional.WithPort (-1)]
  = Returns (None, Some (errors_New "port cannot be negative")).
Proof. reflexivity. Qed.

Example functional_two_ports :
  Functional.NewServer "" [Functional.WithPort 80; Functional.WithPort 443]
  = Returns (Some {| Addr := ":443" |}, None).
Proof. reflexivity. Qed.

Example heap_main :
  fst (Heap.resolve "localhost" (present 8080) Heap.empty_store)
  = Returns (Some {| Addr := "localhost:8080" |}, None).
Proof. reflexivity. Qed.

(** ** Facts about [Itoa] *)

Lemma to_int_not_nil (i : Z) :
  Z.to_int i <> Decimal.Pos Decimal.Nil /\ Z.to_int i <> Decimal.Neg Decimal.Nil.
Proof.
  destruct i as [|p|p]; simpl; split; try discriminate;
    intro H; injection H as H;
    exact (DecimalPos.Unsigned.to_uint_nonnil p H).
Qed.

(** Different integers print differently. *)
Lemma Itoa_inj (i j : Z) : Itoa i = Itoa j -> i = j.
Proof.
  unfold Itoa. intro H.
  apply DecimalZ.to_int_inj.
  destruct (to_int_not_nil i) as [Hi1 Hi2].
  destruct (to_int_not_nil j) as [Hj1 Hj2].
  pose proof (NilZero.isi _ Hi1 Hi2) as Ei.
  pose proof (NilZero.isi _ Hj1 Hj2) as Ej.
  rewrite H in Ei. congruence.
Qed.

Lemma digits_no_colon (d : Decimal.uint) :
  has_colon (NilEmpty.string_of_uint d) = false.
Proof.
  unfold has_colon.
  induction d as [|d IH|d IH|d IH|d IH|d IH|d IH|d IH|d IH|d IH|d IH];
    simpl; auto.
Qed.

(** The numeral of an integer contains no colon. *)
Lemma Itoa_no_colon (i : Z) : has_colon (Itoa i) = false.
Proof.
  unfold Itoa.
  destruct (Z.to_int i) as [d|d]; simpl.
  - destruct d; try reflexivity; apply digits_no_colon.
  - unfold has_colon; simpl.
    destruct d; try reflexivity; apply digits_no_colon.
Qed.

(** ** Facts about the functional-options loop *)

Section FunctionalLoop.

Import Functional.

(** When the struct points to [v], the server listens on [v]; the
    zero test changes nothing, because the variable starts at 0. *)
Lemma listen_port_Some (v : Z) :
  listen_port {| port := Some v |} = Returns v.
Proof.
  unfold listen_port; simpl. by_cases; subst; reflexivity.
Qed.

Lemma listen_port_None : listen_port {| port := None |} = Panics nil_dereference.
Proof. reflexivity. Qed.

Lemma WithPort_nonneg (v : Z) (o : options) :
  0 <= v -> WithPort v o = ({| port := Some v |}, None).
Proof. intro H. unfold WithPort. by_cases. reflexivity. Qed.

Lemma WithPort_neg (v : Z) (o : options) :
  v < 0 -> WithPort v o = (o, Some negative_port).
Proof. intro H. unfold WithPort. by_cases. reflexivity. Qed.

(** The loop over a concatenation runs the second list only if the
    first one ended without an error. *)
Lemma apply_opts_app (pre post : list Option) (o : options) :
  apply_opts (pre ++ post)%list o =
  match apply_opts pre o with
  | (o1, Some e) => (o1, Some e)
  | (o1, None) => apply_opts post o1
  end.
Proof.
  revert o. induction pre as [|f pre IH]; intro o; simpl.
  - reflexivity.
  - destruct (f o) as [o' [e|]]; [reflexivity | apply IH].
Qed.

(** The loop stops at the first option that fails: the struct is the
    one this option left and whatever follows it plays no part. *)
Lemma apply_opts_abort (pre post : list Option) (f : Option)
      (o o1 o2 : options) (e : error) :
  apply_opts pre o = (o1, None) ->
  f o1 = (o2, Some e) ->
  apply_opts (pre ++ f :: post)%list o = (o2, Some e).
Proof.
  intros Hpre Hf. rewrite apply_opts_app, Hpre. simpl. rewrite Hf.
  reflexivity.
Qed.

Lemma last_cons (l : list Z) (w d : Z) : last (w :: l) d = last l w.
Proof.
  revert w d. induction l as [|x l IH]; intros w d.
  - reflexivity.
  - change (last (w :: x :: l) d) with (last (x :: l) d).
    rewrite (IH x d). symmetry. apply (IH x w).
Qed.

(** A run of [WithPort] options with non-negative arguments never
    fails and leaves the struct pointing to the last argument. *)
Lemma apply_WithPorts (vs : list Z) (o : options) :
  Forall (fun v => 0 <= v) vs ->
  apply_opts (map WithPort vs) o =
  (match vs with
   | [] => o
   | v :: rest => {| port := Some (last rest v) |}
   end, None).
Proof.
  intro H. revert o. induction H as [|v vs Hv Hvs IH]; intro o.
  - reflexivity.
  - cbn [map apply_opts]. rewrite (WithPort_nonneg v o Hv).
    rewrite IH. destruct vs as [|w vs]; [reflexivity|].
    rewrite last_cons. reflexivity.
Qed.

End FunctionalLoop.

(** ** The four cases of the policy *)

(** C1: a negative port is rejected.  For every [v < 0], the
    functional-options constructor called with [WithPort v] and the
    procedural constructor called with a pointer to [v] both return a
    nil server together with the error whose message is exactly
    "port cannot be negative"; no address, hence no port, is produced. *)
Theorem negative_port_rejected (addr : string) (v : Z) :
  v < 0 ->
  Functional.NewServer addr (options_of (present v))
  = Returns (None, Some (errors_New "port cannot be negative"))
  /\ Procedural.NewServer addr (pointer_of (present v))
     = Returns (None, Some (errors_New "port cannot be negative")).
Proof.
  intro Hv. split.
  - unfold Functional.NewServer; simpl.
    rewrite (WithPort_neg v _ Hv). reflexivity.
  - unfold Procedural.NewServer; simpl. by_cases. reflexivity.
Qed.

Lemma negative_port_rejected_witness :
  -1 < 0
  /\ (Functional.NewServer "localhost" (options_of (present (-1)))
      = Returns (None, Some (errors_New "port cannot be negative"))
      /\ Procedural.NewServer "localhost" (pointer_of (present (-1)))
         = Returns (None, Some (errors_New "port cannot be negative"))).
Proof.
  split; [lia | apply (negative_port_rejected "localhost" (-1)); lia].
Defined.

(** C2: a positive port is used verbatim.  For every [v > 0], however
    large, the option stores [v], the server listens on exactly [v],
    and both constructors succeed with the address built from [v]. *)
Theorem positive_port_verbatim (addr : string) (v : Z) :
  0 < v ->
  Functional.apply_opts (options_of (present v)) {| Functional.port := None |}
  = ({| Functional.port := Some v |}, None)
  /\ Functional.listen_port {| Functional.port := Some v |} = Returns v
  /\ Functional.NewServer addr (options_of (present v))
     = Returns (Some {| Addr := addr ++ ":" ++ Itoa v |}, None)
  /\ Procedural.NewServer addr (pointer_of (present v))
     = Returns (Some {| Addr := addr ++ ":" ++ Itoa v |}, None).
Proof.
  intro Hv.
  assert (Hopt : Functional.apply_opts (options_of (present v))
                   {| Functional.port := None |}
                 = ({| Functional.port := Some v |}, None)).
  { simpl. rewrite WithPort_nonneg by lia. reflexivity. }
  split; [|split; [|split]].
  - exact Hopt.
  - apply listen_port_Some.
  - unfold Functional.NewServer. rewrite Hopt, listen_port_Some. reflexivity.
  - unfold Procedural.NewServer; simpl. by_cases. reflexivity.
Qed.

Lemma positive_port_verbatim_witness :
  0 < 70000
  /\ Functional.NewServer "localhost" (options_of (present 70000))
     = Returns (Some {| Addr := "localhost:70000" |}, None).
Proof.
  split; [lia | apply (positive_port_verbatim "localhost" 70000); lia].
Defined.

(** C3, on the code: with no port supplied neither constructor reaches
    a default port.  The functional-options constructor called without
    options, and the procedural one called with a nil pointer, test the
    pointer against nil, do nothing in that branch, and then dereference
    it: the call panics instead of returning a server on port 8080. *)
Theorem absent_port_panics (addr : string) :
  Functional.NewServer addr (options_of absent) = Panics nil_dereference
  /\ Procedural.NewServer addr (pointer_of absent) = Panics nil_dereference.
Proof. split; reflexivity. Qed.

(** C4: port zero asks for an ephemeral port.  [WithPort 0] is accepted,
    the server's port variable keeps its initial value 0, and both
    constructors return a server, without error, whose address ends in
    ":0", which makes the operating system choose the port.  The outcome
    differs from the one of an absent port. *)
Theorem zero_port_ephemeral (addr : string) :
  Functional.apply_opts (options_of (present 0)) {| Functional.port := None |}
  = ({| Functional.port := Some 0 |}, None)
  /\ Functional.listen_port {| Functional.port := Some 0 |} = Returns 0
  /\ Functional.NewServer addr (options_of (present 0))
     = Returns (Some {| Addr := addr ++ ":0" |}, None)
  /\ Procedural.NewServer addr (pointer_of (present 0))
     = Returns (Some {| Addr := addr ++ ":0" |}, None)
  /\ Functional.NewServer addr (options_of (present 0))
     <> Functional.NewServer addr (options_of absent).
Proof.
  repeat (split; [reflexivity|]). discriminate.
Qed.

(** What the constructors do with a port that is present: they always
    return, with the error exactly when the port is negative. *)
Lemma present_port_outcome (addr : string) (v : Z) :
  Functional.NewServer addr (options_of (present v))
  = (if v <? 0 then Returns (None, Some negative_port)
     else Returns (Some {| Addr := addr ++ ":" ++ Itoa v |}, None))
  /\ Procedural.NewServer addr (pointer_of (present v))
     = (if v <? 0 then Returns (None, Some negative_port)
        else Returns (Some {| Addr := addr ++ ":" ++ Itoa v |}, None))
  /\ Builder.build (builder_of (present v))
     = (if v <? 0
        then Returns ({| Builder.Config_Port := None |}, Some negative_port)
        else Returns ({| Builder.Config_Port := Some v |}, None)).
Proof.
  split; [|split].
  - unfold Functional.NewServer; simpl. unfold Functional.WithPort.
    destruct (Z.ltb_spec v 0); [reflexivity|].
    rewrite listen_port_Some. reflexivity.
  - unfold Procedural.NewServer; simpl. destruct (v <? 0); reflexivity.
  - unfold Builder.build; simpl. destruct (v <? 0); reflexivity.
Qed.

(** C5, on the code: resolution is not total.  With no port supplied the
    functional-options constructor returns nothing at all, neither a
    server nor the error, and so does [build] on a builder whose [Port]
    method was never called: both panic on the nil pointer. *)
Theorem absent_port_never_returns (addr : string) :
  (forall r : result,
      Functional.NewServer addr (options_of absent) <> Returns r)
  /\ (forall c : Builder.Config * option error,
         Builder.build (builder_of absent) <> Returns c).
Proof. split; intros x H; discriminate H. Qed.

(** ** Determinism, over the heap *)

Section HeapFacts.

Import Heap.

(** Allocation leaves the variables that exist already alone. *)
Lemma new_frame (v : Z) (h : store) (l : loc) :
  (l < next h)%nat -> cells (snd (new v h)) l = cells h l.
Proof.
  intro Hl. simpl. destruct (Nat.eqb_spec l (next h)); [lia | reflexivity].
Qed.

Lemma new_init (v : Z) (h : store) :
  cells (snd (new v h)) (fst (new v h)) = v.
Proof. simpl. rewrite Nat.eqb_refl. reflexivity. Qed.

(** A request changes no variable that existed before it. *)
Lemma after_frame (s : PortSpec) (h : store) (l : loc) :
  (l < next h)%nat -> cells (after s h) l = cells h l.
Proof.
  destruct s as [|v]; intro Hl; [reflexivity | apply new_frame, Hl].
Qed.

(** Running a request on the heap gives the outcome of the pointer-free
    model, whatever the heap holds. *)
Lemma resolve_outcome (addr : string) (s : PortSpec) (h : store) :
  fst (resolve addr s h) = Functional.NewServer addr (options_of s).
Proof.
  destruct s as [|v]; [reflexivity|].
  unfold resolve, WithPort, NewServer, Functional.NewServer; simpl.
  rewrite Nat.eqb_refl. unfold Functional.WithPort.
  destruct (Z.ltb_spec v 0); simpl; [reflexivity|].
  unfold listen_port; simpl. rewrite Nat.eqb_refl.
  rewrite listen_port_Some.
  destruct (Z.eqb_spec v 0); subst; reflexivity.
Qed.

(** Its only trace on the heap is the variable of [WithPort]. *)
Lemma resolve_store (addr : string) (s : PortSpec) (h : store) :
  snd (resolve addr s h) = after s h.
Proof.
  destruct s as [|v]; [reflexivity|].
  unfold resolve, WithPort, NewServer; simpl.
  rewrite Nat.eqb_refl. destruct (v <? 0); reflexivity.
Qed.

(** One option value handed to two calls of [NewServer]: the second
    call finds the heap the first one left and returns the same. *)
Lemma shared_option (addr : string) (v : Z) (h : store) :
  let (opt, h1) := WithPort v h in
  let (r1, h2) := NewServer addr [opt] h1 in
  let (r2, h3) := NewServer addr [opt] h2 in
  r1 = r2 /\ h3 = h1.
Proof.
  unfold WithPort, NewServer; simpl. rewrite Nat.eqb_refl.
  destruct (v <? 0) eqn:E; simpl; rewrite ?Nat.eqb_refl, ?E; simpl;
    split; reflexivity.
Qed.

End HeapFacts.

(** C6: resolution is deterministic.  Run on the heap, where hidden
    state could live, a port request gives the same outcome when it is
    resolved a second time right after the first, and the same outcome
    from any other heap; that outcome is the value of the pointer-free
    function of the request, and the only trace of the call on the heap
    is the freshly allocated parameter of [WithPort]. *)
Theorem resolve_deterministic (addr : string) (s : PortSpec)
        (h h' : Heap.store) :
  let first := Heap.resolve addr s h in
  fst (Heap.resolve addr s (snd first)) = fst first
  /\ fst (Heap.resolve addr s h') = fst first
  /\ fst first = Functional.NewServer addr (options_of s)
  /\ snd first = Heap.after s h.
Proof.
  cbv zeta. rewrite !resolve_outcome. rewrite resolve_store.
  repeat (split; [reflexivity|]). reflexivity.
Qed.

(** ** The address handed to the server *)

(** C7: the address of every server that is returned is the host,
    one colon, and the decimal numeral of the port the server listens
    on.  For the functional-options constructor this holds for any list
    of options; for the procedural one the port is the integer pointed
    to.  The numeral itself contains no colon, and it is "0" when the
    port is the ephemeral one. *)
Theorem address_is_host_colon_port (addr : string) :
  (forall (opts : list Functional.Option) (srv : Server) (err : option error),
      Functional.NewServer addr opts = Returns (Some srv, err) ->
      exists (o : Functional.options) (p : Z),
        Functional.apply_opts opts {| Functional.port := None |} = (o, None)
        /\ Functional.listen_port o = Returns p
        /\ err = None
        /\ Addr srv = addr ++ ":" ++ Itoa p
        /\ has_colon (Itoa p) = false
        /\ (p = 0 -> Addr srv = addr ++ ":0"))
  /\ (forall (port : option Z) (srv : Server) (err : option error),
         Procedural.NewServer addr port = Returns (Some srv, err) ->
         exists p : Z,
           port = Some p
           /\ 0 <= p
           /\ err = None
           /\ Addr srv = addr ++ ":" ++ Itoa p
           /\ has_colon (Itoa p) = false
           /\ (p = 0 -> Addr srv = addr ++ ":0")).
Proof.
  split.
  - intros opts srv err H. unfold Functional.NewServer in H.
    destruct (Functional.apply_opts opts _) as [o [e|]] eqn:Ho;
      [discriminate H|].
    destruct (Functional.listen_port o) as [p|q] eqn:Hp;
      [|discriminate H].
    simpl in H. injection H as Hsrv Herr. subst srv err.
    exists o, p.
    split; [reflexivity|]. split; [exact Hp|].
    split; [reflexivity|]. split; [reflexivity|].
    split; [apply Itoa_no_colon|].
    intros ->. reflexivity.
  - intros [p|] srv err H; [|discriminate H].
    unfold Procedural.NewServer in H; simpl in H.
    destruct (Z.ltb_spec p 0) as [Hneg|Hpos]; [discriminate H|].
    injection H as Hsrv Herr. subst srv err.
    exists p. split; [reflexivity|]. split; [exact Hpos|].
    split; [reflexivity|]. split; [reflexivity|].
    split; [apply Itoa_no_colon|].
    intros ->. reflexivity.
Qed.

Lemma address_is_host_colon_port_witness :
  (exists (o : Functional.options) (p : Z),
      Functional.apply_opts [Functional.WithPort 8080]
        {| Functional.port := None |} = (o, None)
      /\ Functional.listen_port o = Returns p
      /\ @None error = None
      /\ "localhost:8080" = "localhost" ++ ":" ++ Itoa p
      /\ has_colon (Itoa p) = false
      /\ (p = 0 -> "localhost:8080" = "localhost" ++ ":0"))
  /\ (exists p : Z,
         Some 0 = Some p
         /\ 0 <= p
         /\ @None error = None
         /\ "localhost:0" = "localhost" ++ ":" ++ Itoa p
         /\ has_colon (Itoa p) = false
         /\ (p = 0 -> "localhost:0" = "localhost" ++ ":0")).
Proof.
  destruct (address_is_host_colon_port "localhost") as [HF HP].
  split.
  - exact (HF [Functional.WithPort 8080] {| Addr := "localhost:8080" |}
              None eq_refl).
  - exact (HP (Some 0) {| Addr := "localhost:0" |} None eq_refl).
Defined.

(** The address determines the port: two servers built for the same
    host have the same address only if they listen on the same port. *)
Lemma address_determines_port (addr : string) (p q : Z) :
  addr ++ ":" ++ Itoa p = addr ++ ":" ++ Itoa q -> p = q.
Proof.
  induction addr as [|c addr IH]; simpl; intro H.
  - injection H as H. apply Itoa_inj, H.
  - injection H as H. apply IH, H.
Qed.

(** ** Several options *)

(** [WithPort v] returns no error exactly when [v] is not negative. *)
Lemma WithPort_succeeds_iff (v : Z) (o : Functional.options) :
  snd (Functional.WithPort v o) = None <-> 0 <= v.
Proof.
  unfold Functional.WithPort.
  destruct (Z.ltb_spec v 0) as [Hlt|Hge]; simpl; split; intro Hs;
    try discriminate; try lia; reflexivity.
Qed.

(** C8: the last [WithPort] wins.  When [NewServer] is given a non-empty
    list of [WithPort] options that all succeed (their arguments are not
    negative), the struct ends up pointing to the argument of the last
    one, this is the port the server listens on, and the address is
    built from it. *)
Theorem last_WithPort_wins (addr : string) (vs : list Z) (d : Z) :
  vs <> [] ->
  Forall (fun v => 0 <= v) vs ->
  Functional.apply_opts (map Functional.WithPort vs)
    {| Functional.port := None |}
  = ({| Functional.port := Some (last vs d) |}, None)
  /\ Functional.listen_port {| Functional.port := Some (last vs d) |}
     = Returns (last vs d)
  /\ Functional.NewServer addr (map Functional.WithPort vs)
     = Returns (Some {| Addr := addr ++ ":" ++ Itoa (last vs d) |}, None).
Proof.
  intros Hne Hall.
  assert (Hloop : Functional.apply_opts (map Functional.WithPort vs)
                    {| Functional.port := None |}
                  = ({| Functional.port := Some (last vs d) |}, None)).
  { rewrite (apply_WithPorts vs _ Hall).
    destruct vs as [|v rest]; [contradiction Hne; reflexivity|].
    rewrite last_cons. reflexivity. }
  split; [exact Hloop|].
  split; [apply listen_port_Some|].
  unfold Functional.NewServer. rewrite Hloop, listen_port_Some. reflexivity.
Qed.

Lemma last_WithPort_wins_witness :
  [80; 0; 443] <> []
  /\ Forall (fun v => 0 <= v) [80; 0; 443]
  /\ Functional.NewServer "localhost"
       (map Functional.WithPort [80; 0; 443])
     = Returns (Some {| Addr := "localhost:443" |}, None).
Proof.
  assert (Hne : [80; 0; 443] <> []) by discriminate.
  assert (Hall : Forall (fun v => 0 <= v) [80; 0; 443])
    by (repeat constructor; lia).
  split; [exact Hne|]. split; [exact Hall|].
  apply (last_WithPort_wins "localhost" [80; 0; 443] 0 Hne Hall).
Defined.

(** C9: a failing [WithPort] is atomic and ends the loop.  For [v < 0],
    [WithPort v] returns the error and hands back the struct it was
    given, with the port it held before.  And when the options before
    some option succeed and that option fails, the loop ends with the
    struct and the error this option produced and [NewServer] returns
    that error, whatever options follow: none of them is applied. *)
Theorem failing_option_aborts (v : Z) :
  v < 0 ->
  (forall o : Functional.options,
      Functional.WithPort v o
      = (o, Some (errors_New "port cannot be negative")))
  /\ (forall (addr : string) (pre post : list Functional.Option)
             (f : Functional.Option) (o1 o2 : Functional.options)
             (e : error),
         Functional.apply_opts pre {| Functional.port := None |} = (o1, None) ->
         f o1 = (o2, Some e) ->
         Functional.apply_opts (pre ++ f :: post)%list
           {| Functional.port := None |} = (o2, Some e)
         /\ Functional.NewServer addr (pre ++ f :: post)%list
            = Returns (None, Some e)).
Proof.
  intro Hv. split.
  - intro o. apply WithPort_neg, Hv.
  - intros addr pre post f o1 o2 e Hpre Hf.
    pose proof (apply_opts_abort pre post f _ o1 o2 e Hpre Hf) as Hloop.
    split; [exact Hloop|].
    unfold Functional.NewServer. rewrite Hloop. reflexivity.
Qed.

Lemma failing_option_aborts_witness :
  -1 < 0
  /\ Functional.WithPort (-1) {| Functional.port := Some 80 |}
     = ({| Functional.port := Some 80 |},
        Some (errors_New "port cannot be negative"))
  /\ Functional.NewServer "localhost"
       ([Functional.WithPort 80]
          ++ Functional.WithPort (-1) :: [Functional.WithPort 443])%list
     = Returns (None, Some (errors_New "port cannot be negative")).
Proof.
  assert (Hv : -1 < 0) by lia.
  destruct (failing_option_aborts (-1) Hv) as [Hatomic Habort].
  split; [exact Hv|]. split; [apply Hatomic|].
  apply (Habort "localhost" [Functional.WithPort 80]
           [Functional.WithPort 443] (Functional.WithPort (-1))
           {| Functional.port := Some 80 |}
           {| Functional.port := Some 80 |}
           (errors_New "port cannot be negative") eq_refl eq_refl).
Defined.

(** ** The builder *)

(** C10: the builder validates late.  [Port] takes any integer, negative
    ones included, and stores it in the builder; it has no way to fail.
    A negative port is refused only by [build], with the error
    "port cannot be negative"; a port that is not negative goes through
    [build] unchanged. *)
Theorem builder_defers_validation (b : Builder.ConfigBuilder) (v : Z) :
  Builder.port (Builder.Port b v) = Some v
  /\ (v < 0 ->
      Builder.build (Builder.Port b v)
      = Returns ({| Builder.Config_Port := None |},
                 Some (errors_New "port cannot be negative")))
  /\ (0 <= v ->
      Builder.build (Builder.Port b v)
      = Returns ({| Builder.Config_Port := Some v |}, None)).
Proof.
  split; [reflexivity|].
  split; intro Hv; unfold Builder.build; simpl; by_cases; reflexivity.
Qed.

Lemma builder_defers_validation_witness :
  -5 < 0
  /\ Builder.port (Builder.Port Builder.empty (-5)) = Some (-5)
  /\ Builder.build (Builder.Port Builder.empty (-5))
     = Returns ({| Builder.Config_Port := None |},
                Some (errors_New "port cannot be negative")).
Proof.
  assert (Hv : -5 < 0) by lia.
  destruct (builder_defers_validation Builder.empty (-5)) as (Hst & Hneg & _).
  split; [exact Hv|]. split; [exact Hst | exact (Hneg Hv)].
Defined.

(** * Further properties of the code *)

(** ** The functional-options constructor on any list of options *)

Section FunctionalFacts.

Import Functional.

Lemma nonneg_of_existsb (vs : list Z) :
  existsb (fun v => v <? 0) vs = false -> Forall (fun v => 0 <= v) vs.
Proof.
  induction vs as [|v vs IH]; simpl; intro H.
  - constructor.
  - apply orb_false_iff in H. destruct H as [Hv Hvs].
    constructor; [apply Z.ltb_ge, Hv | apply IH, Hvs].
Qed.

(** A negative argument anywhere in a run of [WithPort] options makes
    the loop end with the negative-port error. *)
Lemma apply_WithPorts_neg (vs : list Z) (o : options) :
  existsb (fun v => v <? 0) vs = true ->
  exists o', apply_opts (map WithPort vs) o = (o', Some negative_port).
Proof.
  revert o. induction vs as [|v vs IH]; simpl; intros o H.
  - discriminate H.
  - unfold WithPort at 1. destruct (v <? 0) eqn:Hv.
    + exists o. reflexivity.
    + simpl in H. apply IH, H.
Qed.

Lemma NewServer_WithPorts_cases (addr : string) (vs : list Z) :
  NewServer addr (map WithPort vs) =
  if existsb (fun v => v <? 0) vs
  then Returns (None, Some negative_port)
  else match vs with
       | [] => Panics nil_dereference
       | v :: rest =>
           Returns (Some {| Addr := addr ++ ":" ++ Itoa (last rest v) |}, None)
       end.
Proof.
  unfold NewServer. destruct (existsb _ vs) eqn:Hex.
  - destruct (apply_WithPorts_neg vs {| port := None |} Hex) as [o' Ho'].
    rewrite Ho'. reflexivity.
  - rewrite (apply_WithPorts vs _ (nonneg_of_existsb vs Hex)).
    destruct vs as [|v rest]; [reflexivity|].
    rewrite listen_port_Some. reflexivity.
Qed.

(** An error the loop ends with was returned by one of the options. *)
Lemma apply_opts_error_origin (opts : list Option) (o o' : options)
      (e : error) :
  apply_opts opts o = (o', Some e) ->
  exists (f : Option) (o1 : options), In f opts /\ f o1 = (o', Some e).
Proof.
  revert o. induction opts as [|f opts IH]; simpl; intros o H.
  - discriminate H.
  - destruct (f o) as [o1 [e1|]] eqn:Hf.
    + injection H as <- <-. exists f, o. split; [left; reflexivity | exact Hf].
    + destruct (IH _ H) as (g & o2 & Hin & Hg).
      exists g, o2. split; [right; exact Hin | exact Hg].
Qed.

End FunctionalFacts.

(** X1: what [NewServer] does with any list of [WithPort] options.  If
    some argument is negative it returns the negative-port error and no
    server; otherwise, with no option at all it panics, and with at
    least one it returns the server whose address is built from the
    last argument. *)
Theorem NewServer_on_WithPorts (addr : string) (vs : list Z) :
  Functional.NewServer addr (map Functional.WithPort vs) =
  if existsb (fun v => v <? 0) vs
  then Returns (None, Some (errors_New "port cannot be negative"))
  else match vs with
       | [] => Panics nil_dereference
       | v :: rest =>
           Returns (Some {| Addr := addr ++ ":" ++ Itoa (last rest v) |}, None)
       end.
Proof. exact (NewServer_WithPorts_cases addr vs). Qed.

(** X2: [NewServer] adds no error of its own.  Whatever the options are,
    an error it returns comes with a nil server and is the error that
    one of the given options returned. *)
Theorem NewServer_error_from_option (addr : string)
        (opts : list Functional.Option) (srv : option Server) (e : error) :
  Functional.NewServer addr opts = Returns (srv, Some e) ->
  srv = None
  /\ exists (f : Functional.Option) (o : Functional.options),
       In f opts /\ snd (f o) = Some e.
Proof.
  unfold Functional.NewServer. intro H.
  destruct (Functional.apply_opts opts _) as [o' [e'|]] eqn:Hloop.
  - injection H as <- <-. split; [reflexivity|].
    destruct (apply_opts_error_origin _ _ _ _ Hloop) as (f & o1 & Hin & Hf).
    exists f, o1. split; [exact Hin | rewrite Hf; reflexivity].
  - destruct (Functional.listen_port o') as [p|q]; discriminate H.
Qed.

Lemma NewServer_error_from_option_witness :
  None = (@None Server)
  /\ exists (f : Functional.Option) (o : Functional.options),
       In f [Functional.WithPort 80; Functional.WithPort (-1)]
       /\ snd (f o) = Some (errors_New "port cannot be negative").
Proof.
  exact (NewServer_error_from_option "localhost"
           [Functional.WithPort 80; Functional.WithPort (-1)]
           None (errors_New "port cannot be negative") eq_refl).
Defined.



(** X4: validation is effective.  A server that [NewServer] returns for
    a list of [WithPort] options listens on one of the given ports, and
    that port is not negative. *)
Theorem served_port_is_valid (addr : string) (vs : list Z)
        (srv : Server) (err : option error) :
  Functional.NewServer addr (map Functional.WithPort vs)
  = Returns (Some srv, err) ->
  exists p : Z,
    In p vs /\ 0 <= p /\ Addr srv = addr ++ ":" ++ Itoa p.
Proof.
  rewrite NewServer_WithPorts_cases.
  destruct (existsb _ vs) eqn:Hex; [discriminate|].
  destruct vs as [|v rest]; [discriminate|].
  intro H. injection H as <- _.
  pose proof (nonneg_of_existsb _ Hex) as Hall.
  assert (Hin : In (last rest v) (v :: rest)).
  { rewrite <- (last_cons rest v 0).
    destruct (exists_last (l := v :: rest)) as (l' & a & Hl); [discriminate|].
    rewrite Hl, last_last. apply in_or_app. right. left. reflexivity. }
  exists (last rest v). split; [exact Hin|]. split; [|reflexivity].
  rewrite Forall_forall in Hall. apply Hall, Hin.
Qed.

Lemma served_port_is_valid_witness :
  exists p : Z,
    In p [80; 443] /\ 0 <= p /\ "localhost:443" = "localhost" ++ ":" ++ Itoa p.
Proof.
  exact (served_port_is_valid "localhost" [80; 443]
           {| Addr := "localhost:443" |} None eq_refl).
Defined.

(** ** The constructors side by side *)

(** X5: a constructor that returns hands back either a server or an
    error, never both and never neither.  This holds for the procedural
    constructor, for the functional-options one with any options, and
    for the config-struct one however its address is printed; the
    builder's constructor never returns an error at all. *)
Theorem server_or_error (addr : string) :
  (forall (opts : list Functional.Option) (srv : option Server)
          (err : option error),
      Functional.NewServer addr opts = Returns (srv, err) ->
      (srv = None <-> err <> None))
  /\ (forall (port : option Z) (srv : option Server) (err : option error),
         Procedural.NewServer addr port = Returns (srv, err) ->
         (srv = None <-> err <> None))
  /\ (forall (conv : option Z -> string) (cfg : option ConfigStruct.Config)
             (srv : option Server) (err : option error),
         ConfigStruct.NewServer conv addr cfg = Returns (srv, err) ->
         (srv = None <-> err <> None))
  /\ (forall (cfg : Builder.Config) (srv : option Server)
             (err : option error),
         Builder.NewServer addr cfg = Returns (srv, err) ->
         srv <> None /\ err = None).
Proof.
  split; [|split; [|split]].
  - intros opts srv err H. unfold Functional.NewServer in H.
    destruct (Functional.apply_opts opts _) as [o [e|]].
    + injection H as <- <-. split; [discriminate | reflexivity].
    + destruct (Functional.listen_port o) as [p|q]; [|discriminate H].
      injection H as <- <-. split; [discriminate | intro H; contradiction H; reflexivity].
  - intros [p|] srv err H; [|discriminate H].
    unfold Procedural.NewServer in H; simpl in H.
    destruct (p <? 0); injection H as <- <-; split;
      try discriminate; try reflexivity;
      intro H; contradiction H; reflexivity.
  - intros conv [[[p|]]|] srv err H; try discriminate H.
    unfold ConfigStruct.NewServer in H; simpl in H.
    destruct (p <? 0); injection H as <- <-; split;
      try discriminate; try reflexivity;
      intro H; contradiction H; reflexivity.
  - intros [[p|]] srv err H; [|discriminate H].
    injection H as <- <-. split; [discriminate | reflexivity].
Qed.

Lemma server_or_error_witness :
  (@None Server = None <-> Some (errors_New "port cannot be negative") <> None)
  /\ (Some {| Addr := "localhost:-5" |} <> None /\ @None error = None).
Proof.
  destruct (server_or_error "localhost") as (HF & _ & _ & HB).
  split.
  - exact (HF [Functional.WithPort (-1)] None
              (Some (errors_New "port cannot be negative")) eq_refl).
  - exact (HB {| Builder.Config_Port := Some (-5) |}
              (Some {| Addr := "localhost:-5" |}) None eq_refl).
Defined.

(** X6: the procedural and the functional-options constructors follow
    the same policy.  Given the same port request, a pointer for the one
    and at most one [WithPort] for the other, they end the same way:
    the same server, the same error, or the same panic. *)
Theorem procedural_agrees_with_functional (addr : string) (s : PortSpec) :
  Procedural.NewServer addr (pointer_of s)
  = Functional.NewServer addr (options_of s).
Proof.
  destruct s as [|v]; [reflexivity|].
  destruct (present_port_outcome addr v) as (HF & HP & _).
  rewrite HF, HP. reflexivity.
Qed.

(** X7: the address tells the port.  Two calls for the same host with
    ports that are not negative return the same result only if the
    ports are the same. *)
Theorem address_tells_port (addr : string) (v w : Z) :
  0 <= v -> 0 <= w ->
  Functional.NewServer addr [Functional.WithPort v]
  = Functional.NewServer addr [Functional.WithPort w] ->
  v = w.
Proof.
  intros Hv Hw.
  destruct (present_port_outcome addr v) as (Ev & _).
  destruct (present_port_outcome addr w) as (Ew & _).
  simpl in Ev, Ew. rewrite Ev, Ew.
  destruct (Z.ltb_spec v 0) as [Hv'|_]; [lia|].
  destruct (Z.ltb_spec w 0) as [Hw'|_]; [lia|].
  intro Heq. injection Heq as Heq.
  apply (address_determines_port addr), Heq.
Qed.

Lemma address_tells_port_witness :
  0 <= 8080
  /\ Functional.NewServer "localhost" [Functional.WithPort 8080]
     = Functional.NewServer "localhost" [Functional.WithPort 8080]
  /\ 8080 = 8080.
Proof.
  assert (Hv : 0 <= 8080) by lia.
  split; [exact Hv|]. split; [reflexivity|].
  exact (address_tells_port "localhost" 8080 8080 Hv Hv eq_refl).
Defined.

(** X8: the config-struct constructor, whatever text the ill-typed
    conversion of the pointer yields.  A nil configuration and a nil
    port make it panic, a negative port gives the negative-port error
    and no server, and any other port gives a server whose address is
    the host, a colon and the converted pointer. *)
Theorem config_struct_outcomes (conv : option Z -> string) (addr : string) :
  ConfigStruct.NewServer conv addr None = Panics nil_dereference
  /\ ConfigStruct.NewServer conv addr
       (Some {| ConfigStruct.Port := None |}) = Panics nil_dereference
  /\ (forall v : Z,
         v < 0 ->
         ConfigStruct.NewServer conv addr
           (Some {| ConfigStruct.Port := Some v |})
         = Returns (None, Some (errors_New "port cannot be negative")))
  /\ (forall v : Z,
         0 <= v ->
         ConfigStruct.NewServer conv addr
           (Some {| ConfigStruct.Port := Some v |})
         = Returns (Some {| Addr := addr ++ ":" ++ conv (Some v) |}, None)).
Proof.
  split; [reflexivity|]. split; [reflexivity|].
  split; intros v Hv; unfold ConfigStruct.NewServer; simpl;
    by_cases; reflexivity.
Qed.

Lemma config_struct_outcomes_witness :
  ConfigStruct.NewServer (fun _ => "?") "localhost"
    (Some {| ConfigStruct.Port := Some (-1) |})
  = Returns (None, Some (errors_New "port cannot be negative"))
  /\ ConfigStruct.NewServer (fun _ => "?") "localhost"
       (Some {| ConfigStruct.Port := Some 0 |})
     = Returns (Some {| Addr := "localhost:?" |}, None).
Proof.
  destruct (config_struct_outcomes (fun _ => "?") "localhost")
    as (_ & _ & Hneg & Hok).
  split; [apply (Hneg (-1)); lia | apply (Hok 0); lia].
Defined.



(** ** The builder, from [Port] to the server *)

Section BuilderFacts.

Import Builder.

(** Each call of [Port] replaces what the builder held. *)
Lemma fold_Port (vs : list Z) (b : ConfigBuilder) (d : Z) :
  vs <> [] -> fold_left Port vs b = Port b (last vs d).
Proof.
  revert b. induction vs as [|v rest IH]; intros b Hne.
  - contradiction Hne. reflexivity.
  - destruct rest as [|w rest]; [reflexivity|].
    change (fold_left Port (v :: w :: rest) b)
      with (fold_left Port (w :: rest) (Port b v)).
    rewrite IH by discriminate. reflexivity.
Qed.

Lemma build_Some (v : Z) :
  build {| port := Some v |}
  = if v <? 0 then Returns ({| Config_Port := None |}, Some negative_port)
    else Returns ({| Config_Port := Some v |}, None).
Proof. unfold build; simpl. destruct (v <? 0); reflexivity. Qed.

End BuilderFacts.

(** X10: what [build] guarantees when it returns.  The builder held a
    port; if it is not negative there is no error and the configuration
    carries this very port, and if it is negative the error is the
    negative-port error and the configuration is the empty one. *)
Theorem build_postcondition (b : Builder.ConfigBuilder)
        (cfg : Builder.Config) (err : option error) :
  Builder.build b = Returns (cfg, err) ->
  exists v : Z,
    Builder.port b = Some v
    /\ ((0 <= v /\ err = None /\ Builder.Config_Port cfg = Some v)
        \/ (v < 0
            /\ err = Some (errors_New "port cannot be negative")
            /\ cfg = {| Builder.Config_Port := None |})).
Proof.
  destruct b as [[v|]]; [|discriminate].
  rewrite build_Some. intro H. exists v. split; [reflexivity|].
  destruct (Z.ltb_spec v 0) as [Hneg|Hpos]; injection H as <- <-.
  - right. repeat split. exact Hneg.
  - left. repeat split. exact Hpos.
Qed.

Lemma build_postcondition_witness :
  exists v : Z,
    Some 8080 = Some v
    /\ ((0 <= v /\ @None error = None /\ Some 8080 = Some v)
        \/ (v < 0
            /\ None = Some (errors_New "port cannot be negative")
            /\ {| Builder.Config_Port := Some 8080 |}
               = {| Builder.Config_Port := None |})).
Proof.
  exact (build_postcondition (Builder.Port Builder.empty 8080)
           {| Builder.Config_Port := Some 8080 |} None eq_refl).
Defined.

(** X11: a configuration that [build] returned without error never makes
    the builder's [NewServer] panic: the server is returned, on the
    port the builder held, which is not negative. *)
Theorem built_config_serves (addr : string) (b : Builder.ConfigBuilder)
        (cfg : Builder.Config) :
  Builder.build b = Returns (cfg, None) ->
  exists v : Z,
    0 <= v
    /\ Builder.port b = Some v
    /\ Builder.NewServer addr cfg
       = Returns (Some {| Addr := addr ++ ":" ++ Itoa v |}, None).
Proof.
  destruct b as [[v|]]; [|discriminate].
  rewrite build_Some.
  destruct (Z.ltb_spec v 0) as [Hneg|Hpos]; [discriminate|].
  intro H. injection H as <-.
  exists v. repeat split. exact Hpos.
Qed.

Lemma built_config_serves_witness :
  exists v : Z,
    0 <= v
    /\ Some 0 = Some v
    /\ Builder.NewServer "localhost" {| Builder.Config_Port := Some 0 |}
       = Returns (Some {| Addr := "localhost" ++ ":" ++ Itoa v |}, None).
Proof.
  exact (built_config_serves "localhost" (Builder.Port Builder.empty 0)
           {| Builder.Config_Port := Some 0 |} eq_refl).
Defined.

(** X12: the builder used the way its [main] uses it, where the error of
    [build] is only logged and the configuration is handed to
    [NewServer] all the same.  With a port that is not negative the
    server is returned on that port; with a negative port [NewServer]
    receives the empty configuration and panics. *)
Theorem build_then_NewServer (addr : string) (b : Builder.ConfigBuilder)
        (v : Z) :
  (0 <= v ->
   bind (Builder.build (Builder.Port b v))
        (fun r => Builder.NewServer addr (fst r))
   = Returns (Some {| Addr := addr ++ ":" ++ Itoa v |}, None))
  /\ (v < 0 ->
      bind (Builder.build (Builder.Port b v))
           (fun r => Builder.NewServer addr (fst r))
      = Panics nil_dereference).
Proof.
  unfold Builder.Port. rewrite build_Some.
  split; intro Hv; by_cases; reflexivity.
Qed.

Lemma build_then_NewServer_witness :
  bind (Builder.build (Builder.Port Builder.empty 443))
       (fun r => Builder.NewServer "localhost" (fst r))
  = Returns (Some {| Addr := "localhost:443" |}, None)
  /\ bind (Builder.build (Builder.Port Builder.empty (-1)))
          (fun r => Builder.NewServer "localhost" (fst r))
     = Panics nil_dereference.
Proof.
  split.
  - apply (build_then_NewServer "localhost" Builder.empty 443). lia.
  - apply (build_then_NewServer "localhost" Builder.empty (-1)). lia.
Defined.

(** X13: in a chain of [Port] calls the last one wins: the builder, and
    with it the result of [build], is the one a single call with the
    last port gives. *)
Theorem last_Port_wins (vs : list Z) (b : Builder.ConfigBuilder) (d : Z) :
  vs <> [] ->
  fold_left Builder.Port vs b = Builder.Port Builder.empty (last vs d)
  /\ Builder.build (fold_left Builder.Port vs b)
     = Builder.build (Builder.Port Builder.empty (last vs d)).
Proof.
  intro Hne. rewrite (fold_Port vs b d Hne). split; reflexivity.
Qed.

Lemma last_Port_wins_witness :
  [-3; 80; 8080] <> []
  /\ Builder.build (fold_left Builder.Port [-3; 80; 8080] Builder.empty)
     = Returns ({| Builder.Config_Port := Some 8080 |}, None).
Proof.
  assert (Hne : [-3; 80; 8080] <> []) by discriminate.
  split; [exact Hne|].
  apply (last_Port_wins [-3; 80; 8080] Builder.empty 0 Hne).
Defined.

(** ** Several options over the heap *)

Section HeapArguments.

Import Heap.

Lemma WithPort_reader (v : Z) (h : store) :
  WithPort v h = (reader (next h), snd (new v h)).
Proof. reflexivity. Qed.

(** Evaluating the arguments yields one closure per port, each reading
    a variable that holds its port, and changes no older variable. *)
Lemma WithPorts_spec (vs : list Z) (h : store) :
  exists addrs : list loc,
    fst (WithPorts vs h) = map reader addrs
    /\ Forall2 (fun a v => cells (snd (WithPorts vs h)) a = v) addrs vs
    /\ (forall l : loc,
           (l < next h)%nat -> cells (snd (WithPorts vs h)) l = cells h l).
Proof.
  revert h. induction vs as [|v rest IH]; intro h.
  - exists []. simpl. repeat split. constructor.
  - cbn [WithPorts]. rewrite WithPort_reader.
    destruct (IH (snd (new v h))) as (addrs & Hopts & Hvals & Hframe).
    destruct (WithPorts rest (snd (new v h))) as [opts h2] eqn:Hrest.
    simpl in Hopts, Hvals, Hframe. simpl fst. simpl snd.
    exists (next h :: addrs). split; [|split].
    + simpl. rewrite Hopts. reflexivity.
    + constructor; [|exact Hvals].
      rewrite Hframe by (simpl; lia).
      simpl. rewrite Nat.eqb_refl. reflexivity.
    + intros l Hl. rewrite Hframe by (simpl; lia).
      simpl. destruct (Nat.eqb_spec l (next h)); [lia | reflexivity].
Qed.

(** The loop over such closures leaves the store alone and does, on the
    values pointed to, what the loop of the pointer-free model does. *)
Lemma apply_readers (addrs : list loc) (vs : list Z) (h : store) :
  Forall2 (fun a v => cells h a = v) addrs vs ->
  forall o : options,
  exists (o' : options) (err : option error),
    apply_opts (map reader addrs) o h = (o', err, h)
    /\ Functional.apply_opts (map Functional.WithPort vs) (view h o)
       = (view h o', err).
Proof.
  induction 1 as [|a v addrs vs Hav Hrest IH]; intro o.
  - exists o, None. split; reflexivity.
  - cbn [map apply_opts Functional.apply_opts].
    unfold reader at 1, Functional.WithPort at 1. rewrite Hav.
    destruct (v <? 0).
    + exists o, (Some negative_port). split; reflexivity.
    + destruct (IH {| port := Some a |}) as (o' & err & Hheap & Hpure).
      exists o', err. split; [exact Hheap|].
      unfold view in Hpure at 1. simpl in Hpure. rewrite Hav in Hpure.
      exact Hpure.
Qed.

Lemma listen_port_view (o : options) (h : store) :
  listen_port o h = Functional.listen_port (view h o).
Proof. destruct o as [[l|]]; reflexivity. Qed.

End HeapArguments.

(** X14: [NewServer] only reads.  Called on the heap with the options
    [WithPort(v1), ..., WithPort(vn)], it leaves every variable as it
    was, and its result is the one of the pointer-free model on the
    same ports: it depends on the values given to [WithPort] and on
    nothing else the heap holds. *)
Theorem NewServer_reads_only (addr : string) (vs : list Z) (h : Heap.store) :
  Heap.NewServer addr (fst (Heap.WithPorts vs h)) (snd (Heap.WithPorts vs h))
  = (Functional.NewServer addr (map Functional.WithPort vs),
     snd (Heap.WithPorts vs h)).
Proof.
  destruct (WithPorts_spec vs h) as (addrs & Hopts & Hvals & _).
  rewrite Hopts.
  destruct (apply_readers addrs vs _ Hvals {| Heap.port := None |})
    as (o' & err & Hheap & Hpure).
  unfold Heap.NewServer, Functional.NewServer.
  rewrite Hheap. change (Heap.view (snd (Heap.WithPorts vs h))
                           {| Heap.port := None |})
    with {| Functional.port := None |} in Hpure.
  rewrite Hpure. destruct err as [e|]; [reflexivity|].
  rewrite listen_port_view. reflexivity.
Qed.


